(** * The dataset evaluation job queue of [db/dataset_eval.py]

    A shallow embedding of the module: the [dataset_eval_jobs] table is a
    list of rows, every SQL statement of the module is a function on that
    list, Python exceptions are an explicit outcome, and the calls to the
    collaborating modules ([db.dataset], [db.data], [utils.dataset_validator])
    go through an interface. *)

From Stdlib Require Import ZArith.
From stdpp Require Import base decidable option list sorting strings gmap.

Local Open Scope Z_scope.

(** ** Data model *)

Definition uuid := string.
Definition mbid := string.
Definition json := string.
Definition timestamp := Z.

Definition STATUS_PENDING : string := "pending".
Definition STATUS_RUNNING : string := "running".
Definition STATUS_DONE : string := "done".
Definition STATUS_FAILED : string := "failed".

(** One row of [dataset_eval_jobs], with the columns every SELECT of the
    module lists. *)
Module Job.
Record t := Build {
  id : uuid;
  dataset_id : uuid;
  status : string;
  status_msg : option string;
  result : option json;
  created : timestamp;
  updated : timestamp
}.
End Job.

#[global] Instance job_eq_dec : EqDecision Job.t.
Proof. solve_decision. Defined.

(** A dataset as [validate_dataset] walks it: [dataset["classes"]], and
    [cls["recordings"]] for each class. *)
Record dataset_class := { cls_name : string; recordings : list mbid }.
Record dataset := { classes : list dataset_class }.

Inductive exn :=
  | JobExistsException
  | IncorrectJobStatusException
  | Exception (msg : string)
  | CollaboratorError (msg : string).

#[global] Instance exn_eq_dec : EqDecision exn.
Proof. solve_decision. Defined.

Inductive outcome (A : Type) :=
  | Returns (a : A)
  | Raises (e : exn).
Arguments Returns {A} a.
Arguments Raises {A} e.

(** What a call can touch: the jobs table, and the record of the calls made
    to [db.data.count_lowlevel] (oldest first). *)
Record world := World {
  dataset_eval_jobs : list Job.t;
  lowlevel_lookups : list mbid
}.

(** What a connection obtained from [db.engine] provides to the statements
    run on it: the value of [current_timestamp] and the value that
    [uuid_generate_v4()] yields for the INSERT. *)
Record Connection := {
  current_timestamp : timestamp;
  uuid_generate_v4 : uuid
}.

(** The modules this one imports and calls. *)
Class Collaborators := {
  db_dataset_get : uuid → outcome dataset;
  dataset_validator_validate : dataset → bool → outcome unit;
  db_data_count_lowlevel : mbid → Z
}.

(** ** Exceptions and state *)

Definition DB (A : Type) : Type := world → outcome A * world.

#[global] Instance DB_ret : MRet DB := λ A a w, (Returns a, w).
#[global] Instance DB_bind : MBind DB := λ A B f m w,
  match m w with
  | (Returns a, w') => f a w'
  | (Raises e, w') => (Raises e, w')
  end.

Definition raise {A} (e : exn) : DB A := λ w, (Raises e, w).

Definition lift {A} (o : outcome A) : DB A := λ w, (o, w).

Definition pass : DB unit := mret tt.

Definition when (c : bool) (body : DB unit) : DB unit :=
  if c then body else mret tt.

(** [with db.engine.begin() as connection]: the block's writes to the table
    are committed when it returns and rolled back when it raises. *)
Definition begin {A} (block : DB A) : DB A := λ w,
  match block w with
  | (Returns a, w') => (Returns a, w')
  | (Raises e, w') =>
      (Raises e, World (dataset_eval_jobs w) (lowlevel_lookups w'))
  end.

(** ** SQL statements over the table *)

Definition created_le (j k : Job.t) : Prop := Job.created j ≤ Job.created k.

#[global] Instance created_le_dec : RelDecision created_le.
Proof. intros j k. unfold created_le. apply _. Defined.

(** [ORDER BY created ASC] *)
Definition order_by_created (rows : list Job.t) : list Job.t :=
  merge_sort created_le rows.

Definition select_where (P : Job.t → Prop) `{!∀ j, Decision (P j)}
    : DB (list Job.t) := λ w,
  (Returns (filter P (dataset_eval_jobs w)), w).

Definition update_where (P : Job.t → Prop) `{!∀ j, Decision (P j)}
    (set : Job.t → Job.t) : DB unit := λ w,
  (Returns tt,
   World ((λ j, if decide (P j) then set j else j) <$> dataset_eval_jobs w)
         (lowlevel_lookups w)).

Definition insert_row (row : Job.t) : DB unit := λ w,
  (Returns tt, World (dataset_eval_jobs w ++ [row]) (lowlevel_lookups w)).

(** Modelled from the spec: the table definition is not part of the module.
    The columns an INSERT does not name take their defaults: [status_msg]
    and [result] are nullable and start absent, [created] is the time of the
    insertion, and [updated] starts at the same instant. *)
Definition new_row (connection : Connection) (id dataset_id : uuid)
    (status : string) : Job.t :=
  Job.Build id dataset_id status None None
            (current_timestamp connection) (current_timestamp connection).

Definition count_lowlevel {modules : Collaborators} (recording_mbid : mbid)
    : DB Z :=
  λ w, (Returns (db_data_count_lowlevel recording_mbid),
        World (dataset_eval_jobs w) (lowlevel_lookups w ++ [recording_mbid])).

(** ** The module's functions *)

Section dataset_eval.
Context {modules : Collaborators}.

Definition _create_job (connection : Connection) (dataset_id : uuid)
    : DB uuid :=
  let job_id := uuid_generate_v4 connection in
  _ ← insert_row (new_row connection job_id dataset_id STATUS_PENDING);
  mret job_id.

Definition memo_hit (rec_memo : gmap mbid bool) (recording_mbid : mbid)
    : bool :=
  match rec_memo !! recording_mbid with
  | Some b => b
  | None => false
  end.

(** The inner loop, [for recording_mbid in cls["recordings"]]. *)
Fixpoint validate_recordings (recs : list mbid) (rec_memo : gmap mbid bool)
    : DB (gmap mbid bool) :=
  match recs with
  | [] => mret rec_memo
  | recording_mbid :: rest =>
      _ ← when (memo_hit rec_memo recording_mbid) pass;
      n ← count_lowlevel recording_mbid;
      if decide (n > 0)
      then validate_recordings rest (<[recording_mbid := true]> rec_memo)
      else raise (Exception
             ("Can't find low-level data for recording: " +:+ recording_mbid))
  end.

(** The outer loop, [for cls in dataset["classes"]]. *)
Fixpoint validate_classes (clss : list dataset_class)
    (rec_memo : gmap mbid bool) : DB (gmap mbid bool) :=
  match clss with
  | [] => mret rec_memo
  | cls :: rest =>
      rec_memo' ← validate_recordings (recordings cls) rec_memo;
      validate_classes rest rec_memo'
  end.

Definition validate_dataset (dataset : dataset) : DB unit :=
  _ ← lift (dataset_validator_validate dataset true);
  _ ← validate_classes (classes dataset) ∅;
  mret tt.

Definition evaluate_dataset (connection : Connection) (dataset_id : uuid)
    : DB uuid :=
  begin (
    rows ← select_where (λ j, Job.dataset_id j = dataset_id
                ∧ Job.status j ∈ [STATUS_PENDING; STATUS_RUNNING]);
    if decide (Z.of_nat (length rows) > 0) then raise JobExistsException
    else
      dataset ← lift (db_dataset_get dataset_id);
      _ ← validate_dataset dataset;
      _create_job connection dataset_id).

Definition get_next_pending_job : DB (option Job.t) :=
  rows ← select_where (λ j, Job.status j = STATUS_PENDING);
  mret (head (order_by_created rows)).

Definition get_job (job_id : uuid) : DB (option Job.t) :=
  rows ← select_where (λ j, Job.id j = job_id);
  mret (head rows).

Definition get_jobs_for_dataset (dataset_id : uuid) : DB (list Job.t) :=
  rows ← select_where (λ j, Job.dataset_id j = dataset_id);
  mret (order_by_created rows).

Definition set_job_result (connection : Connection) (job_id : uuid)
    (result : option json) : DB unit :=
  begin (
    update_where (λ j, Job.id j = job_id)
      (λ j, Job.Build (Job.id j) (Job.dataset_id j) (Job.status j)
              (Job.status_msg j) result
              (Job.created j) (current_timestamp connection))).

Definition set_job_status (connection : Connection) (job_id : uuid)
    (status : string) (status_msg : option string) : DB unit :=
  if decide (status ∉ [STATUS_PENDING; STATUS_RUNNING;
                       STATUS_DONE; STATUS_FAILED])
  then raise IncorrectJobStatusException
  else
    begin (
      update_where (λ j, Job.id j = job_id)
        (λ j, Job.Build (Job.id j) (Job.dataset_id j) status status_msg
                (Job.result j)
                (Job.created j) (current_timestamp connection))).

(** The variant the design notes compare [validate_dataset] with: no
    [rec_memo] at all, one lookup per recording reference. *)
Fixpoint validate_recordings_no_memo (recs : list mbid) : DB unit :=
  match recs with
  | [] => mret tt
  | recording_mbid :: rest =>
      n ← count_lowlevel recording_mbid;
      if decide (n > 0)
      then validate_recordings_no_memo rest
      else raise (Exception
             ("Can't find low-level data for recording: " +:+ recording_mbid))
  end.

Fixpoint validate_classes_no_memo (clss : list dataset_class) : DB unit :=
  match clss with
  | [] => mret tt
  | cls :: rest =>
      _ ← validate_recordings_no_memo (recordings cls);
      validate_classes_no_memo rest
  end.

Definition validate_dataset_no_memo (dataset : dataset) : DB unit :=
  _ ← lift (dataset_validator_validate dataset true);
  validate_classes_no_memo (classes dataset).

End dataset_eval.

(** A sequence of insertions, each on its own connection. *)
Fixpoint insertions (ins : list (Connection * uuid)) : DB unit :=
  match ins with
  | [] => mret tt
  | (connection, dataset_id) :: rest =>
      _ ← _create_job connection dataset_id;
      insertions rest
  end.

(** ** Specification vocabulary *)

Definition recognized_statuses : list string :=
  [STATUS_PENDING; STATUS_RUNNING; STATUS_DONE; STATUS_FAILED].

Definition active (dataset_id : uuid) (j : Job.t) : Prop :=
  Job.dataset_id j = dataset_id
  ∧ Job.status j ∈ [STATUS_PENDING; STATUS_RUNNING].

#[global] Instance active_dec dataset_id j : Decision (active dataset_id j).
Proof. unfold active. apply _. Defined.

(** [j] is a pending row and no pending row was created before it. *)
Definition oldest_pending (rows : list Job.t) (j : Job.t) : Prop :=
  j ∈ rows ∧ Job.status j = STATUS_PENDING ∧
  ∀ k, k ∈ rows → Job.status k = STATUS_PENDING →
       Job.created j ≤ Job.created k.

(** The recording references of a dataset in the order the two loops of
    [validate_dataset] meet them. *)
Definition all_recordings (ds : dataset) : list mbid :=
  concat (recordings <$> classes ds).

Definition lowlevel_missing_msg (recording_mbid : mbid) : string :=
  "Can't find low-level data for recording: " +:+ recording_mbid.

(** The recording [r] is the first one of the dataset, in the order of the
    two loops, for which [db.data.count_lowlevel] is not positive. *)
Definition first_missing {modules : Collaborators} (ds : dataset) (r : mbid)
    : Prop :=
  ∃ pre post, all_recordings ds = pre ++ r :: post ∧
    (∀ x, x ∈ pre → db_data_count_lowlevel x > 0) ∧
    db_data_count_lowlevel r ≤ 0.

(** Two submissions of [d] in a row, read without any condition on the
    first: the second raises [JobExistsException] and the table then holds
    exactly one job of [d]. *)
Definition second_submission_is_duplicate {modules : Collaborators}
    (c1 c2 : Connection) (d : uuid) (w : world) : Prop :=
  let w1 := (evaluate_dataset c1 d w).2 in
  (evaluate_dataset c2 d w1).1 = Raises JobExistsException ∧
  length (filter (λ j, Job.dataset_id j = d)
            (dataset_eval_jobs (evaluate_dataset c2 d w1).2)) = 1%nat.

(** A submission of a dataset with a recording without low-level data, read
    without any condition on the store: it raises the exception naming the
    first such recording and creates no job. *)
Definition missing_lowlevel_is_reported {modules : Collaborators}
    (c : Connection) (d : uuid) (w : world) : Prop :=
  ∀ ds r, db_dataset_get d = Returns ds → first_missing ds r →
    ∃ w', evaluate_dataset c d w
            = (Raises (Exception (lowlevel_missing_msg r)), w') ∧
          dataset_eval_jobs w' = dataset_eval_jobs w.

(** Forgetting the value a computation returns, keeping whether it raised
    and the world it left. *)
Definition forget {A} (r : outcome A * world) : outcome unit * world :=
  match r with
  | (Returns _, w) => (Returns tt, w)
  | (Raises e, w) => (Raises e, w)
  end.

(** At most one job of each dataset is pending or running. *)
Definition at_most_one_active (rows : list Job.t) : Prop :=
  ∀ d, (length (filter (active d) rows) ≤ 1)%nat.

(** The rows the two UPDATE statements write. *)
Definition with_status (c : Connection) (status : string)
    (status_msg : option string) (j : Job.t) : Job.t :=
  Job.Build (Job.id j) (Job.dataset_id j) status status_msg (Job.result j)
            (Job.created j) (current_timestamp c).

Definition with_result (c : Connection) (result : option json) (j : Job.t)
    : Job.t :=
  Job.Build (Job.id j) (Job.dataset_id j) (Job.status j) (Job.status_msg j)
            result (Job.created j) (current_timestamp c).

(** A status that takes a job out of the pending and running ones. *)
Definition terminal (status : string) : Prop :=
  status = STATUS_DONE ∨ status = STATUS_FAILED.

(** ** A small installation to run the functions on *)

Module Example.
Definition count (m : mbid) : Z :=
  if decide (m = "r1") then 2
  else if decide (m = "r2") then 1
  else if decide (m = "r3") then 1
  else 0.

Definition ds_a : dataset :=
  {| classes := [ {| cls_name := "rock"; recordings := ["r1"; "r2"] |};
                  {| cls_name := "jazz"; recordings := ["r2"; "r3"] |} ] |}.

Definition ds_b : dataset :=
  {| classes := [ {| cls_name := "rock"; recordings := ["r1"; "r4"] |};
                  {| cls_name := "jazz"; recordings := ["r5"] |} ] |}.

Definition collab : Collaborators := {|
  db_dataset_get d :=
    if decide (d = "A") then Returns ds_a
    else if decide (d = "B") then Returns ds_b
    else Raises (CollaboratorError "no such dataset");
  dataset_validator_validate _ _ := Returns tt;
  db_data_count_lowlevel := count
|}.

Definition conn1 : Connection :=
  {| current_timestamp := 10; uuid_generate_v4 := "j1" |}.
Definition conn2 : Connection :=
  {| current_timestamp := 20; uuid_generate_v4 := "j2" |}.

Definition job_a := Job.Build "a" "A" "pending" None None 5 5.
Definition job_b := Job.Build "b" "B" "pending" None None 3 3.
Definition job_c := Job.Build "c" "A" "done" None (Some "{}") 1 9.

Definition empty : world := World [] [].
Definition busy : world := World [job_a; job_b; job_c] [].
Definition finished : world := World [job_c] [].
End Example.

(** A worker's view: one more connection and a queue with two datasets. *)
Module Scenario.
Definition conn3 : Connection :=
  {| current_timestamp := 30; uuid_generate_v4 := "j3" |}.

Definition job_p := Job.Build "p" "B" "pending" None None 7 7.
Definition job_q := Job.Build "q" "A" "running" (Some "fold 2") None 2 8.

Definition queue : world := World [job_p; job_q; Example.job_c] [].
Definition waiting : world := World [Example.job_b; Example.job_c] [].

(** [Example.finished] after dataset A was submitted on [Example.conn1]. *)
Definition submitted : world :=
  World [Example.job_c; Job.Build "j1" "A" "pending" None None 10 10]
        ["r1"; "r2"; "r2"; "r3"].
End Scenario.

(** ** Running the monad *)

Lemma when_pass (c : bool) (w : world) : when c pass w = (Returns tt, w).
Proof. by destruct c. Qed.

Lemma world_eta (w : world) :
  World (dataset_eval_jobs w) (lowlevel_lookups w) = w.
Proof. by destruct w. Qed.

Lemma select_where_run (P : Job.t → Prop) `{!∀ j, Decision (P j)} {A}
    (k : list Job.t → DB A) (w : world) :
  (select_where P ≫= k) w = k (filter P (dataset_eval_jobs w)) w.
Proof. reflexivity. Qed.

(** ** Facts about the SQL statements *)

#[global] Instance created_le_trans : Transitive created_le.
Proof. unfold created_le. intros x y z ??. lia. Qed.

#[global] Instance created_le_total : Total created_le.
Proof. unfold created_le. intros x y. lia. Qed.

Lemma order_by_created_perm (rows : list Job.t) :
  order_by_created rows ≡ₚ rows.
Proof. apply merge_sort_Permutation. Qed.

Lemma order_by_created_sorted (rows : list Job.t) :
  StronglySorted created_le (order_by_created rows).
Proof. apply (StronglySorted_merge_sort created_le). Qed.

Lemma order_by_created_elem_of (rows : list Job.t) (j : Job.t) :
  j ∈ order_by_created rows ↔ j ∈ rows.
Proof. by rewrite order_by_created_perm. Qed.

Lemma order_by_created_head (rows : list Job.t) (j : Job.t) :
  head (order_by_created rows) = Some j →
  j ∈ rows ∧ ∀ k, k ∈ rows → Job.created j ≤ Job.created k.
Proof.
  intros Hhd. apply head_Some in Hhd as [tl Htl].
  pose proof (order_by_created_sorted rows) as Hs. rewrite Htl in Hs.
  apply StronglySorted_inv in Hs as [_ Hall].
  split.
  - apply order_by_created_elem_of. rewrite Htl. left.
  - intros k Hk. apply order_by_created_elem_of in Hk. rewrite Htl in Hk.
    apply elem_of_cons in Hk as [->|Hk]; [lia|].
    rewrite Forall_forall in Hall. by apply Hall.
Qed.

Lemma order_by_created_head_None (rows : list Job.t) :
  head (order_by_created rows) = None → rows = [].
Proof.
  intros Hhd. apply head_None in Hhd.
  apply Permutation_nil_r. rewrite <- Hhd. symmetry.
  apply order_by_created_perm.
Qed.

Lemma update_none (P : Job.t → Prop) `{!∀ j, Decision (P j)}
    (set : Job.t → Job.t) (rows : list Job.t) :
  (∀ j, j ∈ rows → ¬ P j) →
  (λ j, if decide (P j) then set j else j) <$> rows = rows.
Proof.
  intros Hno. induction rows as [|j rows IH]; [done|].
  rewrite fmap_cons. rewrite IH.
  - destruct (decide (P j)) as [Hp|]; [|done].
    exfalso. apply (Hno j); [left|done].
  - intros k Hk. apply Hno. by right.
Qed.

Lemma set_job_result_run (c : Connection) (job_id : uuid)
    (r : option json) (w : world) :
  set_job_result c job_id r w =
    (Returns tt,
     World ((λ j, if decide (Job.id j = job_id)
                  then Job.Build (Job.id j) (Job.dataset_id j) (Job.status j)
                         (Job.status_msg j) r (Job.created j)
                         (current_timestamp c)
                  else j) <$> dataset_eval_jobs w)
           (lowlevel_lookups w)).
Proof. reflexivity. Qed.

Lemma get_jobs_for_dataset_run (d : uuid) (w : world) :
  get_jobs_for_dataset d w =
    (Returns (order_by_created
                (filter (λ j, Job.dataset_id j = d) (dataset_eval_jobs w))), w).
Proof. reflexivity. Qed.

(** ** Status and result writes *)

(** C2: for every job id, [set_job_status] called with a status outside
    pending, running, done and failed raises [IncorrectJobStatusException]
    and leaves the whole store as it was, so every job keeps its [status],
    [status_msg] and [updated]. *)
Theorem set_job_status_unrecognized (c : Connection) (job_id : uuid)
    (status : string) (status_msg : option string) (w : world) :
  status ∉ recognized_statuses →
  set_job_status c job_id status status_msg w
    = (Raises IncorrectJobStatusException, w).
Proof.
  intros Hbad. unfold set_job_status.
  destruct (decide (status ∉ _)) as [_|Hin]; [done|].
  by destruct Hin.
Qed.

Lemma set_job_status_unrecognized_witness :
  set_job_status Example.conn1 "a" "cancelled" (Some "stop") Example.busy
    = (Raises IncorrectJobStatusException, Example.busy).
Proof.
  apply (set_job_status_unrecognized Example.conn1 "a" "cancelled").
  unfold recognized_statuses. intros Hin.
  repeat (apply elem_of_cons in Hin as [Hin|Hin]; [discriminate Hin|]).
  by apply elem_of_nil in Hin.
Defined.

(** C7: [set_job_result] always returns; in the store it leaves, every row
    whose id is [job_id] has [result] set to the payload and [updated] set to
    the time of the call, with [id], [dataset_id], [status], [status_msg] and
    [created] as before, and every other row is the row it was. No condition
    on the row's status is involved. *)
Theorem set_job_result_frame (c : Connection) (job_id : uuid)
    (r : option json) (w : world) :
  ∃ w', set_job_result c job_id r w = (Returns tt, w') ∧
    lowlevel_lookups w' = lowlevel_lookups w ∧
    length (dataset_eval_jobs w') = length (dataset_eval_jobs w) ∧
    ∀ i j, dataset_eval_jobs w !! i = Some j →
      ∃ j', dataset_eval_jobs w' !! i = Some j' ∧
        Job.id j' = Job.id j ∧
        Job.dataset_id j' = Job.dataset_id j ∧
        Job.status j' = Job.status j ∧
        Job.status_msg j' = Job.status_msg j ∧
        Job.created j' = Job.created j ∧
        (Job.id j = job_id →
           Job.result j' = r ∧ Job.updated j' = current_timestamp c) ∧
        (Job.id j ≠ job_id → j' = j).
Proof.
  eexists. split; [apply set_job_result_run|]. simpl.
  split; [done|]. split; [by rewrite length_fmap|].
  intros i j Hj. rewrite list_lookup_fmap, Hj. simpl.
  eexists. split; [done|].
  destruct (decide (Job.id j = job_id)) as [Heq|Hne]; simpl;
    repeat split; try done.
Qed.

(** C8: two calls of [set_job_result] in a row with the same payload [r] on
    a stored job: after the first the job's [result] is [r] and [updated] is
    the time of the first call; after the second [result] is still [r] and
    [updated] is the time of the second call. *)
Theorem set_job_result_twice (c1 c2 : Connection) (job_id : uuid)
    (r : option json) (w : world) (i : nat) (j : Job.t) :
  dataset_eval_jobs w !! i = Some j →
  Job.id j = job_id →
  ∃ w1 w2 j1 j2,
    set_job_result c1 job_id r w = (Returns tt, w1) ∧
    set_job_result c2 job_id r w1 = (Returns tt, w2) ∧
    dataset_eval_jobs w1 !! i = Some j1 ∧
    dataset_eval_jobs w2 !! i = Some j2 ∧
    Job.result j1 = r ∧ Job.updated j1 = current_timestamp c1 ∧
    Job.result j2 = r ∧ Job.updated j2 = current_timestamp c2.
Proof.
  intros Hj Hid. do 2 eexists.
  eexists (Job.Build _ _ _ _ _ _ _), (Job.Build _ _ _ _ _ _ _).
  split; [apply set_job_result_run|].
  split; [apply set_job_result_run|]. simpl.
  rewrite !list_lookup_fmap, Hj. simpl.
  rewrite !decide_True by done. simpl.
  repeat split; reflexivity.
Qed.

Lemma set_job_result_twice_witness :
  ∃ w1 w2 j1 j2,
    set_job_result Example.conn1 "c" (Some "[1]") Example.busy
      = (Returns tt, w1) ∧
    set_job_result Example.conn2 "c" (Some "[1]") w1 = (Returns tt, w2) ∧
    dataset_eval_jobs w1 !! 2%nat = Some j1 ∧
    dataset_eval_jobs w2 !! 2%nat = Some j2 ∧
    Job.result j1 = Some "[1]" ∧ Job.updated j1 = 10 ∧
    Job.result j2 = Some "[1]" ∧ Job.updated j2 = 20.
Proof.
  apply (set_job_result_twice Example.conn1 Example.conn2 "c" (Some "[1]")
           Example.busy 2 Example.job_c); reflexivity.
Defined.

(** C10: when no stored job has the id [job_id], [set_job_status] with one of
    the four recognized statuses and [set_job_result] both return without an
    exception and leave the store exactly as it was, and [get_job] returns
    [None]. *)
Theorem unknown_job_id_is_noop (c : Connection) (job_id : uuid)
    (status : string) (status_msg : option string) (r : option json)
    (w : world) :
  (∀ j, j ∈ dataset_eval_jobs w → Job.id j ≠ job_id) →
  status ∈ recognized_statuses →
  set_job_status c job_id status status_msg w = (Returns tt, w) ∧
  set_job_result c job_id r w = (Returns tt, w) ∧
  get_job job_id w = (Returns None, w).
Proof.
  intros Hno Hst. repeat split.
  - unfold set_job_status.
    destruct (decide (status ∉ _)) as [Hbad|_]; [by destruct Hbad|].
    unfold begin, update_where.
    rewrite update_none by done. by rewrite world_eta.
  - rewrite set_job_result_run.
    rewrite update_none by done. by rewrite world_eta.
  - unfold get_job. rewrite select_where_run.
    replace (filter _ _) with (@nil Job.t); [done|].
    symmetry. apply (proj1 (head_None _)).
    destruct (head _) as [j|] eqn:Hhd; [|done].
    apply head_Some_elem_of, list_elem_of_filter in Hhd as [Hid Hin].
    by destruct (Hno j Hin).
Qed.

Lemma unknown_job_id_is_noop_witness :
  set_job_status Example.conn1 "zz" "done" None Example.busy
    = (Returns tt, Example.busy) ∧
  set_job_result Example.conn1 "zz" (Some "{}") Example.busy
    = (Returns tt, Example.busy) ∧
  get_job "zz" Example.busy = (Returns None, Example.busy).
Proof.
  apply (unknown_job_id_is_noop Example.conn1 "zz" "done" None (Some "{}")
           Example.busy).
  - intros j Hin. simpl in Hin.
    repeat (apply elem_of_cons in Hin as [->|Hin]; [discriminate|]).
    by apply elem_of_nil in Hin.
  - unfold recognized_statuses. do 2 right. left.
Defined.

(** ** Reading the queue *)

(** C3: [get_next_pending_job] never raises and never changes the store. It
    returns [None] exactly when no stored job is pending; otherwise it
    returns one job, which is stored, pending, and created no later than any
    pending job, so when one pending job is strictly the oldest it is the one
    returned. *)
Theorem get_next_pending_job_oldest (w : world) :
  ∃ r, get_next_pending_job w = (Returns r, w) ∧
    match r with
    | Some j => oldest_pending (dataset_eval_jobs w) j
    | None => ∀ k, k ∈ dataset_eval_jobs w → Job.status k ≠ STATUS_PENDING
    end ∧
    ∀ j, oldest_pending (dataset_eval_jobs w) j →
         (∀ k, k ∈ dataset_eval_jobs w → Job.status k = STATUS_PENDING →
               k ≠ j → Job.created j < Job.created k) →
         r = Some j.
Proof.
  eexists. split; [reflexivity|].
  set (pend := filter (λ j, Job.status j = STATUS_PENDING)
                      (dataset_eval_jobs w)).
  assert (Hres : match head (order_by_created pend) with
                 | Some j => oldest_pending (dataset_eval_jobs w) j
                 | None => ∀ k, k ∈ dataset_eval_jobs w →
                                Job.status k ≠ STATUS_PENDING
                 end).
  { destruct (head (order_by_created pend)) as [j|] eqn:Hhd.
    - apply order_by_created_head in Hhd as [Hin Hmin].
      apply list_elem_of_filter in Hin as [Hst Hin].
      repeat split; [done..|].
      intros k Hk Hkst. apply Hmin. by apply list_elem_of_filter.
    - apply order_by_created_head_None in Hhd.
      intros k Hk Hkst.
      by apply (filter_nil_not_elem_of _ _ k Hhd Hkst). }
  split; [exact Hres|].
  intros j (Hin & Hst & Hmin) Hstrict.
  destruct (head (order_by_created pend)) as [j0|] eqn:Hhd.
  - destruct Hres as (Hin0 & Hst0 & Hmin0).
    destruct (decide (j0 = j)) as [->|Hne]; [done|].
    pose proof (Hstrict j0 Hin0 Hst0 Hne).
    pose proof (Hmin0 j Hin Hst). lia.
  - by destruct (Hres j Hin).
Qed.

(** C6: after any sequence of insertions into any table,
    [get_jobs_for_dataset d] returns, without changing the store, exactly the
    stored jobs whose [dataset_id] is [d] (each as often as it is stored),
    in non-decreasing order of [created]. *)
Theorem get_jobs_for_dataset_sorted (w0 : world)
    (ins : list (Connection * uuid)) (d : uuid) :
  ∃ w rows,
    insertions ins w0 = (Returns tt, w) ∧
    get_jobs_for_dataset d w = (Returns rows, w) ∧
    rows ≡ₚ filter (λ j, Job.dataset_id j = d) (dataset_eval_jobs w) ∧
    StronglySorted created_le rows.
Proof.
  assert (Hins : ∃ w, insertions ins w0 = (Returns tt, w)).
  { revert w0. induction ins as [|[c d'] ins IH]; intros w0.
    - by eexists.
    - simpl. unfold mbind, DB_bind. simpl. apply IH. }
  destruct Hins as [w Hw]. exists w. eexists.
  split; [done|]. split; [apply get_jobs_for_dataset_run|].
  split; [apply order_by_created_perm|apply order_by_created_sorted].
Qed.

(** ** Validation *)

Section validation.
Context {modules : Collaborators}.

Lemma validate_recordings_forget (recs : list mbid)
    (rec_memo : gmap mbid bool) (w : world) :
  forget (validate_recordings recs rec_memo w)
    = validate_recordings_no_memo recs w.
Proof.
  revert rec_memo w. induction recs as [|r recs IH]; intros rec_memo w.
  - reflexivity.
  - simpl. unfold mbind, DB_bind. rewrite when_pass. simpl.
    destruct (decide (db_data_count_lowlevel r > 0)); [apply IH|done].
Qed.

Lemma validate_classes_forget (clss : list dataset_class)
    (rec_memo : gmap mbid bool) (w : world) :
  forget (validate_classes clss rec_memo w)
    = validate_classes_no_memo clss w.
Proof.
  revert rec_memo w. induction clss as [|cls clss IH]; intros rec_memo w.
  - reflexivity.
  - simpl. unfold mbind, DB_bind.
    rewrite <- (validate_recordings_forget (recordings cls) rec_memo w).
    destruct (validate_recordings _ _ w) as [[memo'|e] w']; simpl;
      [apply IH|done].
Qed.

Lemma validate_dataset_forget (ds : dataset) (w : world) :
  validate_dataset ds w = validate_dataset_no_memo ds w.
Proof.
  unfold validate_dataset, validate_dataset_no_memo, mbind, DB_bind, lift.
  destruct (dataset_validator_validate ds true) as [[]|e]; [|done].
  rewrite <- (validate_classes_forget (classes ds) ∅ w).
  by destruct (validate_classes _ _ w) as [[memo'|e] w'].
Qed.

Lemma validate_recordings_no_memo_app (l1 l2 : list mbid) (w : world) :
  validate_recordings_no_memo (l1 ++ l2) w
    = (validate_recordings_no_memo l1
         ≫= λ _, validate_recordings_no_memo l2) w.
Proof.
  revert w. induction l1 as [|r l1 IH]; intros w.
  - reflexivity.
  - simpl. unfold mbind, DB_bind. simpl.
    destruct (decide (db_data_count_lowlevel r > 0)); [|done].
    rewrite IH. reflexivity.
Qed.

Lemma validate_classes_no_memo_concat (clss : list dataset_class)
    (w : world) :
  validate_classes_no_memo clss w
    = validate_recordings_no_memo (concat (recordings <$> clss)) w.
Proof.
  revert w. induction clss as [|cls clss IH]; intros w.
  - reflexivity.
  - simpl. rewrite validate_recordings_no_memo_app.
    unfold mbind, DB_bind.
    destruct (validate_recordings_no_memo _ w) as [[[]|e] w'];
      [apply IH|done].
Qed.

(** Every recording has low-level data: one lookup each, then return. *)
Lemma validate_recordings_no_memo_ok (recs : list mbid) (w : world) :
  (∀ r, r ∈ recs → db_data_count_lowlevel r > 0) →
  validate_recordings_no_memo recs w
    = (Returns tt,
       World (dataset_eval_jobs w) (lowlevel_lookups w ++ recs)).
Proof.
  revert w. induction recs as [|r recs IH]; intros w Hall.
  - simpl. by rewrite app_nil_r, world_eta.
  - simpl. unfold mbind, DB_bind. simpl.
    rewrite decide_True by (apply Hall; left).
    rewrite IH by (intros ??; apply Hall; by right). simpl.
    by rewrite <- app_assoc.
Qed.

(** The first recording without low-level data stops the loop. *)
Lemma validate_recordings_no_memo_missing (pre post : list mbid)
    (r : mbid) (w : world) :
  (∀ x, x ∈ pre → db_data_count_lowlevel x > 0) →
  db_data_count_lowlevel r ≤ 0 →
  validate_recordings_no_memo (pre ++ r :: post) w
    = (Raises (Exception (lowlevel_missing_msg r)),
       World (dataset_eval_jobs w) (lowlevel_lookups w ++ pre ++ [r])).
Proof.
  intros Hpre Hr. rewrite validate_recordings_no_memo_app.
  unfold mbind, DB_bind. rewrite validate_recordings_no_memo_ok by done.
  simpl. unfold mbind, DB_bind. simpl.
  rewrite decide_False by lia. unfold raise.
  by rewrite <- app_assoc.
Qed.

(** A successful loop met no recording without low-level data. *)
Lemma validate_recordings_no_memo_returns (recs : list mbid)
    (w w' : world) :
  validate_recordings_no_memo recs w = (Returns tt, w') →
  ∀ r, r ∈ recs → db_data_count_lowlevel r > 0.
Proof.
  revert w. induction recs as [|r0 recs IH]; intros w Hrun r Hin.
  - by apply elem_of_nil in Hin.
  - simpl in Hrun. unfold mbind, DB_bind in Hrun. simpl in Hrun.
    destruct (decide (db_data_count_lowlevel r0 > 0)) as [Hpos|];
      [|discriminate Hrun].
    apply elem_of_cons in Hin as [->|Hin]; [done|].
    by apply (IH _ Hrun).
Qed.

Lemma validate_dataset_returns (ds : dataset) (w w' : world) :
  validate_dataset ds w = (Returns tt, w') →
  dataset_validator_validate ds true = Returns tt ∧
  (∀ r, r ∈ all_recordings ds → db_data_count_lowlevel r > 0) ∧
  w' = World (dataset_eval_jobs w) (lowlevel_lookups w ++ all_recordings ds).
Proof.
  rewrite validate_dataset_forget.
  unfold validate_dataset_no_memo, mbind, DB_bind, lift.
  destruct (dataset_validator_validate ds true) as [[]|e];
    [|discriminate].
  rewrite validate_classes_no_memo_concat. intros Hrun.
  pose proof (validate_recordings_no_memo_returns _ _ _ Hrun) as Hall.
  rewrite validate_recordings_no_memo_ok in Hrun by done.
  split; [done|]. split; [done|]. by injection Hrun as <-.
Qed.

Lemma validate_dataset_missing (ds : dataset) (pre post : list mbid)
    (r : mbid) (w : world) :
  dataset_validator_validate ds true = Returns tt →
  all_recordings ds = pre ++ r :: post →
  (∀ x, x ∈ pre → db_data_count_lowlevel x > 0) →
  db_data_count_lowlevel r ≤ 0 →
  validate_dataset ds w
    = (Raises (Exception (lowlevel_missing_msg r)),
       World (dataset_eval_jobs w) (lowlevel_lookups w ++ pre ++ [r])).
Proof.
  intros Hv Hsplit Hpre Hr. rewrite validate_dataset_forget.
  unfold validate_dataset_no_memo, mbind, DB_bind, lift. rewrite Hv.
  rewrite validate_classes_no_memo_concat.
  fold (all_recordings ds). rewrite Hsplit.
  by apply validate_recordings_no_memo_missing.
Qed.

(** Validation reads; it never writes to the jobs table. *)
Lemma validate_recordings_no_memo_jobs (recs : list mbid) (w : world) :
  dataset_eval_jobs (validate_recordings_no_memo recs w).2
    = dataset_eval_jobs w.
Proof.
  revert w. induction recs as [|r recs IH]; intros w; [done|].
  simpl. unfold mbind, DB_bind. simpl.
  destruct (decide (db_data_count_lowlevel r > 0)); [|done].
  by rewrite IH.
Qed.

Lemma validate_dataset_jobs (ds : dataset) (w : world) :
  dataset_eval_jobs (validate_dataset ds w).2 = dataset_eval_jobs w.
Proof.
  rewrite validate_dataset_forget.
  unfold validate_dataset_no_memo, mbind, DB_bind, lift.
  destruct (dataset_validator_validate ds true) as [[]|e]; [|done].
  rewrite validate_classes_no_memo_concat.
  apply validate_recordings_no_memo_jobs.
Qed.

(** A dataset with a recording that has no low-level data never passes. *)
Lemma validate_dataset_raises (ds : dataset) (r : mbid) (w : world) :
  r ∈ all_recordings ds →
  db_data_count_lowlevel r ≤ 0 →
  ∃ e w', validate_dataset ds w = (Raises e, w').
Proof.
  intros Hin Hr.
  destruct (validate_dataset ds w) as [[[]|e] w'] eqn:Hrun; [|by eauto].
  apply validate_dataset_returns in Hrun as (_ & Hall & _).
  specialize (Hall r Hin). lia.
Qed.

End validation.

(** ** Submission *)

Section submission.
Context {modules : Collaborators}.

(** The three steps of [evaluate_dataset], one after the other. *)
Lemma evaluate_dataset_run (c : Connection) (d : uuid) (w : world) :
  evaluate_dataset c d w =
    match filter (active d) (dataset_eval_jobs w) with
    | _ :: _ => (Raises JobExistsException, w)
    | [] =>
        match db_dataset_get d with
        | Raises e => (Raises e, w)
        | Returns ds =>
            match validate_dataset ds w with
            | (Raises e, w') =>
                (Raises e, World (dataset_eval_jobs w) (lowlevel_lookups w'))
            | (Returns _, w') =>
                (Returns (uuid_generate_v4 c),
                 World (dataset_eval_jobs w ++
                          [Job.Build (uuid_generate_v4 c) d STATUS_PENDING
                             None None
                             (current_timestamp c) (current_timestamp c)])
                       (lowlevel_lookups w'))
            end
        end
    end.
Proof.
  unfold evaluate_dataset, begin. rewrite select_where_run.
  change (filter _ (dataset_eval_jobs w))
    with (filter (active d) (dataset_eval_jobs w)).
  destruct (filter (active d) (dataset_eval_jobs w)) as [|j rows].
  - simpl. unfold mbind, DB_bind, lift.
    destruct (db_dataset_get d) as [ds|e]; [|by rewrite world_eta].
    pose proof (validate_dataset_jobs ds w) as Hjobs.
    destruct (validate_dataset ds w) as [[[]|e] w']; simpl in *.
    + by rewrite Hjobs.
    + done.
  - rewrite decide_True by (simpl; lia).
    unfold raise. by rewrite world_eta.
Qed.

Lemma no_active_filter (d : uuid) (rows : list Job.t) :
  (∀ j, j ∈ rows → ¬ active d j) → filter (active d) rows = [].
Proof.
  intros Hno. destruct (filter (active d) rows) as [|j tl] eqn:Hf; [done|].
  assert (Hj : j ∈ filter (active d) rows) by (rewrite Hf; left).
  apply list_elem_of_filter in Hj as [Hact Hin]. by destruct (Hno j Hin).
Qed.

(** C4: when no stored job of dataset [d] is pending or running, the
    dataset store returns the dataset and [validate_dataset] accepts it,
    [evaluate_dataset] returns the id that [uuid_generate_v4()] produced
    and adds exactly one row to the table: that id, dataset [d], status
    pending, [created] the time of the insertion. Every earlier row is
    kept as it was. *)
Theorem evaluate_dataset_creates_job (c : Connection) (d : uuid)
    (ds : dataset) (w wv : world) :
  (∀ j, j ∈ dataset_eval_jobs w → ¬ active d j) →
  db_dataset_get d = Returns ds →
  validate_dataset ds w = (Returns tt, wv) →
  evaluate_dataset c d w =
    (Returns (uuid_generate_v4 c),
     World (dataset_eval_jobs w ++
              [Job.Build (uuid_generate_v4 c) d STATUS_PENDING None None
                 (current_timestamp c) (current_timestamp c)])
           (lowlevel_lookups wv)).
Proof.
  intros Hno Hget Hval. rewrite evaluate_dataset_run.
  rewrite no_active_filter by done. by rewrite Hget, Hval.
Qed.

(** C1, as amended: when the first of two calls of [evaluate_dataset] for
    dataset [d] in a row returns, the second raises [JobExistsException]
    and leaves the store the first call left, so it creates no job; the one
    row the first call added is then the only pending or running job of
    [d]. *)
Theorem evaluate_dataset_twice (c1 c2 : Connection) (d job_id : uuid)
    (w w1 : world) :
  evaluate_dataset c1 d w = (Returns job_id, w1) →
  evaluate_dataset c2 d w1 = (Raises JobExistsException, w1) ∧
  dataset_eval_jobs w1 =
    dataset_eval_jobs w ++
      [Job.Build job_id d STATUS_PENDING None None
         (current_timestamp c1) (current_timestamp c1)] ∧
  filter (active d) (dataset_eval_jobs w1) =
    [Job.Build job_id d STATUS_PENDING None None
       (current_timestamp c1) (current_timestamp c1)].
Proof.
  rewrite evaluate_dataset_run. intros Hrun.
  destruct (filter (active d) (dataset_eval_jobs w)) as [|? ?] eqn:Hf;
    [|discriminate Hrun].
  destruct (db_dataset_get d) as [ds|e]; [|discriminate Hrun].
  destruct (validate_dataset ds w) as [[[]|e] wv]; [|discriminate Hrun].
  injection Hrun as <- <-. simpl.
  assert (Hact : filter (active d)
                   (dataset_eval_jobs w ++
                      [Job.Build (uuid_generate_v4 c1) d STATUS_PENDING
                         None None
                         (current_timestamp c1) (current_timestamp c1)])
                 = [Job.Build (uuid_generate_v4 c1) d STATUS_PENDING
                      None None
                      (current_timestamp c1) (current_timestamp c1)]).
  { rewrite filter_app, Hf. simpl.
    rewrite filter_cons_True; [done|]. split; [done|]. simpl. left. }
  split; [|by split].
  rewrite evaluate_dataset_run. simpl. by rewrite Hact.
Qed.

(** C5, as amended: take a dataset the dataset store returns, in which
    [r] is the first recording, in the order of the two loops, without
    low-level data. Then [evaluate_dataset] raises and the jobs table is
    left as it was. When moreover no job of the dataset is pending or
    running and the dataset passes the structural validation, the
    exception is the one whose message names [r], raised after one lookup
    for each recording up to [r]. *)
Theorem evaluate_dataset_missing_lowlevel (c : Connection) (d : uuid)
    (ds : dataset) (pre post : list mbid) (r : mbid) (w : world) :
  db_dataset_get d = Returns ds →
  all_recordings ds = pre ++ r :: post →
  (∀ x, x ∈ pre → db_data_count_lowlevel x > 0) →
  db_data_count_lowlevel r ≤ 0 →
  (∃ e w', evaluate_dataset c d w = (Raises e, w') ∧
           dataset_eval_jobs w' = dataset_eval_jobs w) ∧
  ((∀ j, j ∈ dataset_eval_jobs w → ¬ active d j) →
   dataset_validator_validate ds true = Returns tt →
   evaluate_dataset c d w =
     (Raises (Exception
                ("Can't find low-level data for recording: " +:+ r)),
      World (dataset_eval_jobs w) (lowlevel_lookups w ++ pre ++ [r]))).
Proof.
  intros Hget Hsplit Hpre Hr. rewrite evaluate_dataset_run, Hget. split.
  - destruct (filter (active d) (dataset_eval_jobs w)); [|by eauto].
    destruct (validate_dataset_raises ds r w) as (e & w' & Hrun);
      [rewrite Hsplit; set_solver|done|].
    rewrite Hrun. by eauto.
  - intros Hno Hv. rewrite no_active_filter by done.
    by rewrite (validate_dataset_missing ds pre post r w).
Qed.

(** C9: the [rec_memo] bookkeeping of [validate_dataset] changes nothing.
    On every dataset and store, [validate_dataset] and the variant without
    [rec_memo], which looks up every recording reference, give the same
    outcome (the same exception or a normal return) and the same sequence
    of low-level lookups; and a run that returns has looked up every
    recording reference of the dataset, repeated ones included. *)
Theorem validate_dataset_memo_is_noop (ds : dataset) (w : world) :
  validate_dataset ds w = validate_dataset_no_memo ds w ∧
  ∀ w', validate_dataset ds w = (Returns tt, w') →
        lowlevel_lookups w' = lowlevel_lookups w ++ all_recordings ds.
Proof.
  split; [apply validate_dataset_forget|].
  intros w' Hrun. by apply validate_dataset_returns in Hrun as (_ & _ & ->).
Qed.

End submission.

(** ** The functions at work on the example installation *)

Lemma evaluate_dataset_creates_job_witness :
  evaluate_dataset (modules := Example.collab) Example.conn1 "A"
    Example.finished =
    (Returns "j1",
     World [Example.job_c; Job.Build "j1" "A" "pending" None None 10 10]
           ["r1"; "r2"; "r2"; "r3"]).
Proof.
  apply (@evaluate_dataset_creates_job Example.collab Example.conn1 "A"
           Example.ds_a Example.finished
           (World [Example.job_c] ["r1"; "r2"; "r2"; "r3"])).
  - intros j Hin [_ Hst]. simpl in Hin.
    apply list_elem_of_singleton in Hin as ->. simpl in Hst.
    repeat (apply elem_of_cons in Hst as [Hst|Hst]; [discriminate Hst|]).
    by apply elem_of_nil in Hst.
  - reflexivity.
  - vm_compute. reflexivity.
Defined.

Lemma evaluate_dataset_twice_witness :
  let row := Job.Build "j1" "A" "pending" None None 10 10 in
  let w1 := World [Example.job_c; row] ["r1"; "r2"; "r2"; "r3"] in
  evaluate_dataset (modules := Example.collab) Example.conn2 "A" w1
    = (Raises JobExistsException, w1) ∧
  dataset_eval_jobs w1 = dataset_eval_jobs Example.finished ++ [row] ∧
  filter (active "A") (dataset_eval_jobs w1) = [row].
Proof.
  apply (@evaluate_dataset_twice Example.collab Example.conn1 Example.conn2
           "A" "j1" Example.finished).
  vm_compute. reflexivity.
Defined.

Lemma evaluate_dataset_missing_lowlevel_witness :
  (∃ e w', evaluate_dataset (modules := Example.collab) Example.conn1 "B"
             Example.finished = (Raises e, w') ∧
           dataset_eval_jobs w' = dataset_eval_jobs Example.finished) ∧
  evaluate_dataset (modules := Example.collab) Example.conn1 "B"
    Example.finished
    = (Raises (Exception "Can't find low-level data for recording: r4"),
       World [Example.job_c] ["r1"; "r4"]).
Proof.
  destruct (@evaluate_dataset_missing_lowlevel Example.collab Example.conn1
              "B" Example.ds_b ["r1"] ["r5"] "r4" Example.finished)
    as [Hraises Hnamed].
  - reflexivity.
  - reflexivity.
  - intros x Hx. apply list_elem_of_singleton in Hx as ->. reflexivity.
  - vm_compute. discriminate.
  - split; [exact Hraises|]. apply Hnamed; [|reflexivity].
    intros j Hin [Hd _]. simpl in Hin.
    apply list_elem_of_singleton in Hin as ->. discriminate Hd.
Defined.

(** C1, as stated, fails. A dataset with a recording without low-level data
    is rejected twice with the validation exception, not with
    [JobExistsException], and gets no job at all; and a dataset with a
    finished job gets its second job from the first of the two calls. *)
Lemma second_submission_not_always_duplicate :
  ¬ second_submission_is_duplicate (modules := Example.collab)
      Example.conn1 Example.conn2 "B" Example.empty ∧
  ¬ second_submission_is_duplicate (modules := Example.collab)
      Example.conn1 Example.conn2 "A" Example.finished.
Proof.
  split; intros [Hexn Hcount].
  - vm_compute in Hexn. discriminate Hexn.
  - vm_compute in Hcount. discriminate Hcount.
Qed.

(** C5, as stated, fails. Dataset B has a recording without low-level data
    and also a pending job; the submission stops at the check for an active
    job and raises [JobExistsException]. *)
Lemma missing_lowlevel_not_always_reported :
  ¬ missing_lowlevel_is_reported (modules := Example.collab)
      Example.conn1 "B" Example.busy.
Proof.
  intros Hclaim.
  destruct (Hclaim Example.ds_b "r4") as (w' & Hrun & _).
  - reflexivity.
  - exists ["r1"], ["r5"]. split; [reflexivity|]. split.
    + intros x Hx. apply list_elem_of_singleton in Hx as ->. reflexivity.
    + vm_compute. discriminate.
  - vm_compute in Hrun. discriminate Hrun.
Qed.

(** ** Sample runs *)

Example next_pending_of_busy :
  get_next_pending_job Example.busy
    = (Returns (Some Example.job_b), Example.busy).
Proof. reflexivity. Qed.

Example next_pending_of_finished :
  get_next_pending_job Example.finished = (Returns None, Example.finished).
Proof. reflexivity. Qed.

Example jobs_of_dataset_A :
  get_jobs_for_dataset "A" Example.busy
    = (Returns [Example.job_c; Example.job_a], Example.busy).
Proof. reflexivity. Qed.

Example status_then_result :
  (set_job_status Example.conn1 "a" "failed" (Some "no model")
     ≫= λ _, set_job_result Example.conn2 "a" None) Example.busy
    = (Returns tt,
       World [Job.Build "a" "A" "failed" (Some "no model") None 5 20;
              Example.job_b; Example.job_c] []).
Proof. reflexivity. Qed.

Example repeated_recording_looked_up_twice :
  validate_dataset (modules := Example.collab) Example.ds_a Example.empty
    = (Returns tt, World [] ["r1"; "r2"; "r2"; "r3"]).
Proof. vm_compute. reflexivity. Qed.

(** ** More on the two writes *)

Lemma recognized_not_unrecognized (status : string) :
  status ∈ recognized_statuses →
  ¬ (status ∉ [STATUS_PENDING; STATUS_RUNNING; STATUS_DONE; STATUS_FAILED]).
Proof. intros Hin Hnot. by apply Hnot. Qed.

Lemma set_job_status_run (c : Connection) (job_id : uuid) (status : string)
    (status_msg : option string) (w : world) :
  status ∈ recognized_statuses →
  set_job_status c job_id status status_msg w =
    (Returns tt,
     World ((λ j, if decide (Job.id j = job_id)
                  then with_status c status status_msg j else j)
              <$> dataset_eval_jobs w)
           (lowlevel_lookups w)).
Proof.
  intros Hst. unfold set_job_status.
  rewrite decide_False by by apply recognized_not_unrecognized.
  reflexivity.
Qed.

Lemma set_job_result_run' (c : Connection) (job_id : uuid)
    (r : option json) (w : world) :
  set_job_result c job_id r w =
    (Returns tt,
     World ((λ j, if decide (Job.id j = job_id)
                  then with_result c r j else j) <$> dataset_eval_jobs w)
           (lowlevel_lookups w)).
Proof. reflexivity. Qed.

Lemma get_job_run (job_id : uuid) (w : world) :
  get_job job_id w =
    (Returns (head (filter (λ j, Job.id j = job_id) (dataset_eval_jobs w))),
     w).
Proof. reflexivity. Qed.

Lemma terminal_recognized (status : string) :
  terminal status → status ∈ recognized_statuses.
Proof.
  unfold recognized_statuses. intros [->| ->]; [do 2 right; left|].
  do 3 right; left.
Qed.

(** An UPDATE by id that keeps the id keeps which rows the id selects. *)
Lemma filter_id_update (job_id : uuid) (set : Job.t → Job.t)
    (rows : list Job.t) :
  (∀ j, Job.id (set j) = Job.id j) →
  filter (λ j, Job.id j = job_id)
    ((λ j, if decide (Job.id j = job_id) then set j else j) <$> rows)
  = set <$> filter (λ j, Job.id j = job_id) rows.
Proof.
  intros Hid. induction rows as [|j rows IH]; [done|].
  rewrite fmap_cons. destruct (decide (Job.id j = job_id)) as [Heq|Hne].
  - rewrite !filter_cons_True by (by rewrite ?Hid). by rewrite fmap_cons, IH.
  - by rewrite !filter_cons_False by done.
Qed.

(** X1: [set_job_status] with one of the four statuses always returns; in
    the store it leaves, every row whose id is [job_id] has the new
    [status], the new [status_msg] (absent when none is given) and [updated]
    set to the time of the call, with [id], [dataset_id], [result] and
    [created] as before, and every other row is the row it was. The row's
    current status plays no part: any transition is accepted. *)
Theorem set_job_status_frame (c : Connection) (job_id : uuid)
    (status : string) (status_msg : option string) (w : world) :
  status ∈ recognized_statuses →
  ∃ w', set_job_status c job_id status status_msg w = (Returns tt, w') ∧
    lowlevel_lookups w' = lowlevel_lookups w ∧
    length (dataset_eval_jobs w') = length (dataset_eval_jobs w) ∧
    ∀ i j, dataset_eval_jobs w !! i = Some j →
      ∃ j', dataset_eval_jobs w' !! i = Some j' ∧
        Job.id j' = Job.id j ∧
        Job.dataset_id j' = Job.dataset_id j ∧
        Job.result j' = Job.result j ∧
        Job.created j' = Job.created j ∧
        (Job.id j = job_id →
           Job.status j' = status ∧ Job.status_msg j' = status_msg ∧
           Job.updated j' = current_timestamp c) ∧
        (Job.id j ≠ job_id → j' = j).
Proof.
  intros Hst. eexists. split; [by apply set_job_status_run|]. simpl.
  split; [done|]. split; [by rewrite length_fmap|].
  intros i j Hj. rewrite list_lookup_fmap, Hj. simpl.
  eexists. split; [done|].
  destruct (decide (Job.id j = job_id)) as [Heq|Hne]; simpl;
    repeat split; try done.
Qed.

Lemma set_job_status_frame_witness :
  ∃ w', set_job_status Scenario.conn3 "q" "failed" None Scenario.queue
          = (Returns tt, w') ∧
    lowlevel_lookups w' = lowlevel_lookups Scenario.queue ∧
    length (dataset_eval_jobs w') = length (dataset_eval_jobs Scenario.queue) ∧
    ∀ i j, dataset_eval_jobs Scenario.queue !! i = Some j →
      ∃ j', dataset_eval_jobs w' !! i = Some j' ∧
        Job.id j' = Job.id j ∧
        Job.dataset_id j' = Job.dataset_id j ∧
        Job.result j' = Job.result j ∧
        Job.created j' = Job.created j ∧
        (Job.id j = "q" →
           Job.status j' = "failed" ∧ Job.status_msg j' = None ∧
           Job.updated j' = 30) ∧
        (Job.id j ≠ "q" → j' = j).
Proof.
  apply (set_job_status_frame Scenario.conn3 "q" "failed" None Scenario.queue).
  apply terminal_recognized. by right.
Defined.

(** X2: after [set_job_status] on the id of a stored job, [get_job] for
    that id returns a job with the status and message just written and
    [updated] at the time of the write; its [dataset_id], [result] and
    [created] are those [get_job] returned before the write. *)
Theorem get_job_after_set_job_status (c : Connection) (job_id : uuid)
    (status : string) (status_msg : option string) (w : world) (j : Job.t) :
  status ∈ recognized_statuses →
  get_job job_id w = (Returns (Some j), w) →
  ∃ w', set_job_status c job_id status status_msg w = (Returns tt, w') ∧
        get_job job_id w'
          = (Returns (Some (with_status c status status_msg j)), w').
Proof.
  intros Hst Hget. eexists. split; [by apply set_job_status_run|].
  rewrite get_job_run in Hget |- *. simpl.
  injection Hget as Hhd. f_equal. f_equal.
  rewrite (filter_id_update job_id (with_status c status status_msg))
    by done.
  apply head_Some in Hhd as [tl ->]. done.
Qed.

Lemma get_job_after_set_job_status_witness :
  ∃ w', set_job_status Scenario.conn3 "q" "done" None Scenario.queue
          = (Returns tt, w') ∧
        get_job "q" w'
          = (Returns (Some (Job.Build "q" "A" "done" None None 2 30)), w').
Proof.
  apply (get_job_after_set_job_status Scenario.conn3 "q" "done" None
           Scenario.queue Scenario.job_q).
  - apply terminal_recognized. by left.
  - reflexivity.
Defined.

(** X3: status and result are written independently. After
    [set_job_result] and then [set_job_status] on the id of a stored job,
    [get_job] shows the result of the first write and the status and
    message of the second, with [updated] at the time of the second. *)
Theorem get_job_after_result_and_status (c1 c2 : Connection) (job_id : uuid)
    (r : option json) (status : string) (status_msg : option string)
    (w : world) (j : Job.t) :
  status ∈ recognized_statuses →
  get_job job_id w = (Returns (Some j), w) →
  ∃ w' j',
    (set_job_result c1 job_id r
       ≫= λ _, set_job_status c2 job_id status status_msg) w
      = (Returns tt, w') ∧
    get_job job_id w' = (Returns (Some j'), w') ∧
    Job.id j' = job_id ∧ Job.dataset_id j' = Job.dataset_id j ∧
    Job.result j' = r ∧ Job.status j' = status ∧
    Job.status_msg j' = status_msg ∧
    Job.created j' = Job.created j ∧ Job.updated j' = current_timestamp c2.
Proof.
  intros Hst Hget. rewrite get_job_run in Hget. injection Hget as Hhd.
  pose proof (head_Some_elem_of _ _ Hhd) as Hin.
  apply list_elem_of_filter in Hin as [Hid _].
  apply head_Some in Hhd as [tl Htl].
  eexists. exists (with_status c2 status status_msg (with_result c1 r j)).
  unfold mbind, DB_bind. rewrite set_job_result_run'.
  split; [by apply set_job_status_run|].
  split; [|by repeat split].
  rewrite get_job_run. simpl. f_equal. f_equal.
  rewrite (filter_id_update job_id (with_status c2 status status_msg))
    by done.
  rewrite (filter_id_update job_id (with_result c1 r)) by done.
  by rewrite Htl.
Qed.

Lemma get_job_after_result_and_status_witness :
  ∃ w' j',
    (set_job_result Example.conn2 "q" (Some "{}")
       ≫= λ _, set_job_status Scenario.conn3 "q" "done" None) Scenario.queue
      = (Returns tt, w') ∧
    get_job "q" w' = (Returns (Some j'), w') ∧
    Job.id j' = "q" ∧ Job.dataset_id j' = "A" ∧
    Job.result j' = Some "{}" ∧ Job.status j' = "done" ∧
    Job.status_msg j' = None ∧
    Job.created j' = 2 ∧ Job.updated j' = 30.
Proof.
  apply (get_job_after_result_and_status Example.conn2 Scenario.conn3 "q"
           (Some "{}") "done" None Scenario.queue Scenario.job_q).
  - apply terminal_recognized. by left.
  - reflexivity.
Defined.

Lemma update_update (job_id : uuid) (set1 set2 : Job.t → Job.t)
    (rows : list Job.t) :
  (∀ j, Job.id (set1 j) = Job.id j) →
  (∀ j, set2 (set1 j) = set2 j) →
  (λ j, if decide (Job.id j = job_id) then set2 j else j)
    <$> ((λ j, if decide (Job.id j = job_id) then set1 j else j) <$> rows)
  = (λ j, if decide (Job.id j = job_id) then set2 j else j) <$> rows.
Proof.
  intros Hid Hset. induction rows as [|j rows IH]; [done|].
  rewrite !fmap_cons, IH. f_equal.
  destruct (decide (Job.id j = job_id)) as [Heq|Hne].
  - rewrite decide_True by (by rewrite Hid). apply Hset.
  - by rewrite decide_False.
Qed.

(** X4: the last status write wins. Two [set_job_status] calls in a row on
    the same id, both with recognized statuses, leave the store that the
    second call alone would have left: nothing of the first write remains,
    not its status, its message or its time. *)
Theorem set_job_status_last_write_wins (c1 c2 : Connection) (job_id : uuid)
    (s1 s2 : string) (m1 m2 : option string) (w : world) :
  s1 ∈ recognized_statuses →
  s2 ∈ recognized_statuses →
  (set_job_status c1 job_id s1 m1 ≫= λ _, set_job_status c2 job_id s2 m2) w
    = set_job_status c2 job_id s2 m2 w.
Proof.
  intros H1 H2. unfold mbind, DB_bind.
  rewrite (set_job_status_run c1) by done.
  rewrite !(set_job_status_run c2) by done. simpl.
  by rewrite (update_update job_id (with_status c1 s1 m1)
               (with_status c2 s2 m2)).
Qed.

Lemma set_job_status_last_write_wins_witness :
  (set_job_status Example.conn1 "p" "running" (Some "started")
     ≫= λ _, set_job_status Example.conn2 "p" "done" None) Scenario.queue
    = set_job_status Example.conn2 "p" "done" None Scenario.queue.
Proof.
  apply (set_job_status_last_write_wins Example.conn1 Example.conn2 "p"
           "running" "done" (Some "started") None Scenario.queue).
  - unfold recognized_statuses. right. left.
  - apply terminal_recognized. by left.
Defined.

(** X5: the last result write wins. Two [set_job_result] calls in a row on
    the same id, with any two payloads, leave the store that the second
    call alone would have left. *)
Theorem set_job_result_last_write_wins (c1 c2 : Connection) (job_id : uuid)
    (r1 r2 : option json) (w : world) :
  (set_job_result c1 job_id r1 ≫= λ _, set_job_result c2 job_id r2) w
    = set_job_result c2 job_id r2 w.
Proof.
  unfold mbind, DB_bind. rewrite !set_job_result_run'. simpl.
  by rewrite (update_update job_id (with_result c1 r1) (with_result c2 r2)).
Qed.

Lemma filter_update_length_le (P : Job.t → Prop) `{!∀ j, Decision (P j)}
    (job_id : uuid) (set : Job.t → Job.t) (rows : list Job.t) :
  (∀ j, P (set j) → P j) →
  (length (filter P ((λ j, if decide (Job.id j = job_id) then set j else j)
                       <$> rows))
   ≤ length (filter P rows))%nat.
Proof.
  intros Hset. induction rows as [|j rows IH]; [done|].
  rewrite fmap_cons.
  destruct (decide (Job.id j = job_id)) as [Heq|Hne].
  - destruct (decide (P (set j))) as [Hp|Hp].
    + rewrite !filter_cons_True by auto. simpl. lia.
    + rewrite (filter_cons_False _ (set j)) by done.
      rewrite filter_cons. destruct (decide (P j)); simpl; lia.
  - rewrite !filter_cons. destruct (decide (P j)); simpl; lia.
Qed.

Lemma filter_update_length (P : Job.t → Prop) `{!∀ j, Decision (P j)}
    (job_id : uuid) (set : Job.t → Job.t) (rows : list Job.t) :
  (∀ j, P (set j) ↔ P j) →
  length (filter P ((λ j, if decide (Job.id j = job_id) then set j else j)
                      <$> rows))
  = length (filter P rows).
Proof.
  intros Hset. induction rows as [|j rows IH]; [done|].
  rewrite fmap_cons.
  destruct (decide (Job.id j = job_id)) as [Heq|Hne].
  - destruct (decide (P j)) as [Hp|Hp].
    + rewrite !filter_cons_True by (by rewrite ?Hset). simpl. by rewrite IH.
    + by rewrite !filter_cons_False by (by rewrite ?Hset).
  - rewrite !filter_cons. destruct (decide (P j)); simpl; by rewrite IH.
Qed.

(** X6: a result write never changes which jobs count as active. For every
    dataset, the number of its pending or running jobs is the same before and
    after [set_job_result], whatever the id and the payload; so the check
    [evaluate_dataset] starts with is not affected by results coming in. *)
Theorem set_job_result_keeps_active (c : Connection) (job_id : uuid)
    (r : option json) (w : world) (d : uuid) :
  length (filter (active d)
            (dataset_eval_jobs (set_job_result c job_id r w).2))
  = length (filter (active d) (dataset_eval_jobs w)).
Proof.
  rewrite set_job_result_run'. simpl.
  by apply (filter_update_length (active d) job_id (with_result c r)).
Qed.

(** X7: marking a job done or failed never adds an active job: for every
    dataset the number of its pending or running jobs after
    [set_job_status] with [STATUS_DONE] or [STATUS_FAILED] is at most what
    it was, so a store with at most one active job per dataset stays one. *)
Theorem set_job_status_terminal_keeps_invariant (c : Connection)
    (job_id : uuid) (status : string) (status_msg : option string)
    (w : world) :
  terminal status →
  (∀ d, (length (filter (active d)
           (dataset_eval_jobs (set_job_status c job_id status status_msg w).2))
         ≤ length (filter (active d) (dataset_eval_jobs w)))%nat) ∧
  (at_most_one_active (dataset_eval_jobs w) →
   at_most_one_active
     (dataset_eval_jobs (set_job_status c job_id status status_msg w).2)).
Proof.
  intros Hterm.
  assert (Hle : ∀ d, (length (filter (active d)
      (dataset_eval_jobs (set_job_status c job_id status status_msg w).2))
      ≤ length (filter (active d) (dataset_eval_jobs w)))%nat).
  { intros d. rewrite set_job_status_run by by apply terminal_recognized.
    simpl.
    apply (filter_update_length_le (active d) job_id
             (with_status c status status_msg)).
    intros j [_ Hact]. simpl in Hact. exfalso.
    destruct Hterm as [-> | ->];
      repeat (apply elem_of_cons in Hact as [Hact|Hact];
              [discriminate Hact|]);
      by apply elem_of_nil in Hact. }
  split; [exact Hle|].
  intros Hinv d. specialize (Hle d). specialize (Hinv d). lia.
Qed.

Lemma set_job_status_terminal_keeps_invariant_witness :
  (∀ d, (length (filter (active d)
           (dataset_eval_jobs
              (set_job_status Scenario.conn3 "q" "failed" (Some "crash")
                 Scenario.queue).2))
         ≤ length (filter (active d) (dataset_eval_jobs Scenario.queue)))%nat)
  ∧ (at_most_one_active (dataset_eval_jobs Scenario.queue) →
     at_most_one_active
       (dataset_eval_jobs
          (set_job_status Scenario.conn3 "q" "failed" (Some "crash")
             Scenario.queue).2)).
Proof.
  apply (set_job_status_terminal_keeps_invariant Scenario.conn3 "q" "failed"
           (Some "crash") Scenario.queue).
  by right.
Defined.

(** X8: a job taken off the pending status is no longer handed out. After
    [set_job_status] moves id [job_id] to running, done or failed,
    [get_next_pending_job] returns a stored pending job with another id that
    is the oldest among the pending jobs with another id, and [None] when
    there is no such job. *)
Theorem next_pending_skips_claimed (c : Connection) (job_id : uuid)
    (status : string) (status_msg : option string) (w : world) :
  status ∈ recognized_statuses →
  status ≠ STATUS_PENDING →
  ∃ w' r,
    set_job_status c job_id status status_msg w = (Returns tt, w') ∧
    get_next_pending_job w' = (Returns r, w') ∧
    match r with
    | Some j =>
        Job.id j ≠ job_id ∧ j ∈ dataset_eval_jobs w ∧
        Job.status j = STATUS_PENDING ∧
        ∀ k, k ∈ dataset_eval_jobs w → Job.status k = STATUS_PENDING →
             Job.id k ≠ job_id → Job.created j ≤ Job.created k
    | None =>
        ∀ k, k ∈ dataset_eval_jobs w → Job.status k = STATUS_PENDING →
             Job.id k = job_id
    end.
Proof.
  intros Hst Hnp. do 2 eexists.
  split; [by apply set_job_status_run|]. split; [reflexivity|]. simpl.
  set (upd := λ j : Job.t, if decide (Job.id j = job_id)
                            then with_status c status status_msg j else j).
  assert (Hkeep : ∀ k, k ∈ dataset_eval_jobs w →
            Job.status k = STATUS_PENDING → Job.id k ≠ job_id →
            k ∈ filter (λ j, Job.status j = STATUS_PENDING)
                  (upd <$> dataset_eval_jobs w)).
  { intros k Hk Hpk Hne. apply list_elem_of_filter. split; [done|].
    apply list_elem_of_fmap. exists k. split; [|done].
    unfold upd. by rewrite decide_False. }
  assert (Hback : ∀ j, j ∈ filter (λ j, Job.status j = STATUS_PENDING)
                         (upd <$> dataset_eval_jobs w) →
            Job.id j ≠ job_id ∧ j ∈ dataset_eval_jobs w ∧
            Job.status j = STATUS_PENDING).
  { intros j Hj. apply list_elem_of_filter in Hj as [Hpj Hj].
    apply list_elem_of_fmap in Hj as (k & -> & Hk). unfold upd in *.
    destruct (decide (Job.id k = job_id)) as [Heq|Hne]; [|done].
    by destruct Hnp. }
  destruct (head (order_by_created _)) as [j|] eqn:Hhd.
  - apply order_by_created_head in Hhd as [Hin Hmin].
    destruct (Hback j Hin) as (Hne & Hj & Hpj).
    repeat split; [done..|].
    intros k Hk Hpk Hkne. apply Hmin. by apply Hkeep.
  - apply order_by_created_head_None in Hhd.
    intros k Hk Hpk. destruct (decide (Job.id k = job_id)) as [|Hne]; [done|].
    pose proof (Hkeep k Hk Hpk Hne) as Hin. rewrite Hhd in Hin.
    by apply elem_of_nil in Hin.
Qed.

Lemma next_pending_skips_claimed_witness :
  ∃ w' r,
    set_job_status Scenario.conn3 "b" "running" None Example.busy
      = (Returns tt, w') ∧
    get_next_pending_job w' = (Returns r, w') ∧
    match r with
    | Some j =>
        Job.id j ≠ "b" ∧ j ∈ dataset_eval_jobs Example.busy ∧
        Job.status j = STATUS_PENDING ∧
        ∀ k, k ∈ dataset_eval_jobs Example.busy →
             Job.status k = STATUS_PENDING →
             Job.id k ≠ "b" → Job.created j ≤ Job.created k
    | None =>
        ∀ k, k ∈ dataset_eval_jobs Example.busy →
             Job.status k = STATUS_PENDING → Job.id k = "b"
    end.
Proof.
  apply (next_pending_skips_claimed Scenario.conn3 "b" "running" None
           Example.busy).
  - unfold recognized_statuses. right. left.
  - discriminate.
Defined.

(** ** More on validation *)

Section validation_outcomes.
Context {modules : Collaborators}.

Lemma validate_dataset_ok (ds : dataset) (w : world) :
  dataset_validator_validate ds true = Returns tt →
  (∀ r, r ∈ all_recordings ds → db_data_count_lowlevel r > 0) →
  validate_dataset ds w
    = (Returns tt,
       World (dataset_eval_jobs w) (lowlevel_lookups w ++ all_recordings ds)).
Proof.
  intros Hv Hall. rewrite validate_dataset_forget.
  unfold validate_dataset_no_memo, mbind, DB_bind, lift. rewrite Hv.
  rewrite validate_classes_no_memo_concat.
  by apply validate_recordings_no_memo_ok.
Qed.

(** Either every recording has low-level data or there is a first one
    that has none. *)
Lemma first_missing_or_none (recs : list mbid) :
  (∀ r, r ∈ recs → db_data_count_lowlevel r > 0) ∨
  ∃ pre r post, recs = pre ++ r :: post ∧
    (∀ x, x ∈ pre → db_data_count_lowlevel x > 0) ∧
    db_data_count_lowlevel r ≤ 0.
Proof.
  induction recs as [|r0 recs IH].
  - left. intros r Hr. by apply elem_of_nil in Hr.
  - destruct (decide (db_data_count_lowlevel r0 > 0)) as [Hpos|Hneg].
    + destruct IH as [Hall|(pre & r & post & -> & Hpre & Hr)].
      * left. intros r Hr. apply elem_of_cons in Hr as [->|Hr]; auto.
      * right. exists (r0 :: pre), r, post. split; [done|]. split; [|done].
        intros x Hx. apply elem_of_cons in Hx as [->|Hx]; auto.
    + right. exists [], r0, recs. split; [done|]. split; [|lia].
      intros x Hx. by apply elem_of_nil in Hx.
Qed.

(** X9: [validate_dataset] accepts a dataset exactly when the structural
    validator accepts it and every recording referenced by its classes has
    a positive low-level count; whether it accepts does not depend on the
    store. *)
Theorem validate_dataset_accepts_iff (ds : dataset) (w : world) :
  (∃ w', validate_dataset ds w = (Returns tt, w')) ↔
  dataset_validator_validate ds true = Returns tt ∧
  ∀ r, r ∈ all_recordings ds → db_data_count_lowlevel r > 0.
Proof.
  split.
  - intros [w' Hrun]. by apply validate_dataset_returns in Hrun as (? & ? & _).
  - intros [Hv Hall]. eexists. by apply validate_dataset_ok.
Qed.

(** X10: what [validate_dataset] looks up. It never touches the jobs table,
    and the lookups it makes are a prefix of the dataset's recording
    references in loop order. When the structural validator raises, that
    exception is passed on and nothing is looked up. When the structural
    validator accepts and the call still raises, the lookups end with the
    first recording without low-level data, all recordings before it have
    some, and the exception names that recording. *)
Theorem validate_dataset_lookups (ds : dataset) (w : world) :
  ∃ o looked,
    validate_dataset ds w
      = (o, World (dataset_eval_jobs w) (lowlevel_lookups w ++ looked)) ∧
    looked `prefix_of` all_recordings ds ∧
    (∀ e, dataset_validator_validate ds true = Raises e →
          o = Raises e ∧ looked = []) ∧
    (∀ e, dataset_validator_validate ds true = Returns tt → o = Raises e →
          ∃ pre r, looked = pre ++ [r] ∧
            (∀ x, x ∈ pre → db_data_count_lowlevel x > 0) ∧
            db_data_count_lowlevel r ≤ 0 ∧
            e = Exception
                  ("Can't find low-level data for recording: " +:+ r)).
Proof.
  destruct (dataset_validator_validate ds true) as [[]|e0] eqn:Hv.
  - destruct (first_missing_or_none (all_recordings ds))
      as [Hall|(pre & r & post & Hsplit & Hpre & Hr)].
    + exists (Returns tt), (all_recordings ds).
      split; [by apply validate_dataset_ok|]. split; [done|].
      split; intros e; [discriminate|]. intros _ Ho. discriminate Ho.
    + exists (Raises (Exception (lowlevel_missing_msg r))), (pre ++ [r]).
      split; [by apply (validate_dataset_missing ds pre post)|].
      split.
      { rewrite Hsplit. exists post. by rewrite <- app_assoc. }
      split; intros e; [discriminate|]. intros _ Ho.
      exists pre, r. repeat split; [done..|]. by injection Ho as <-.
  - exists (Raises e0), []. rewrite app_nil_r, world_eta.
    split.
    { unfold validate_dataset, mbind, DB_bind, lift. by rewrite Hv. }
    split; [apply prefix_nil|].
    split; intros e He; [by injection He as <-|discriminate He].
Qed.

End validation_outcomes.

(** ** More on submission *)

Section submission_outcomes.
Context {modules : Collaborators}.

Lemma active_filter_elem (d : uuid) (rows : list Job.t) (j : Job.t) :
  j ∈ rows → active d j → ∃ k tl, filter (active d) rows = k :: tl.
Proof.
  intros Hin Hact.
  destruct (filter (active d) rows) as [|k tl] eqn:Hf; [|by eauto].
  by destruct (filter_nil_not_elem_of _ _ j Hf Hact).
Qed.

(** What a returning [evaluate_dataset] did. *)
Lemma evaluate_dataset_returns (c : Connection) (d : uuid)
    (w : world) (job_id : uuid) (w1 : world) :
  evaluate_dataset c d w = (Returns job_id, w1) →
  job_id = uuid_generate_v4 c ∧
  dataset_eval_jobs w1 =
    dataset_eval_jobs w ++
      [Job.Build (uuid_generate_v4 c) d STATUS_PENDING None None
         (current_timestamp c) (current_timestamp c)].
Proof.
  rewrite evaluate_dataset_run. intros Hrun.
  destruct (filter (active d) (dataset_eval_jobs w));
    [|discriminate Hrun].
  destruct (db_dataset_get d) as [ds|e]; [|discriminate Hrun].
  destruct (validate_dataset ds w) as [[[]|e] wv]; [|discriminate Hrun].
  by injection Hrun as <- <-.
Qed.

(** X11: the guard of [evaluate_dataset]. When some stored job of the
    dataset is pending or running, the call raises [JobExistsException]
    before it asks the dataset store or looks up any recording: the whole
    world, lookups included, is as it was. *)
Theorem evaluate_dataset_job_exists (c : Connection) (d : uuid) (w : world)
    (j : Job.t) :
  j ∈ dataset_eval_jobs w →
  Job.dataset_id j = d →
  Job.status j = STATUS_PENDING ∨ Job.status j = STATUS_RUNNING →
  evaluate_dataset c d w = (Raises JobExistsException, w).
Proof.
  intros Hin Hd Hst. rewrite evaluate_dataset_run.
  destruct (active_filter_elem d (dataset_eval_jobs w) j Hin)
    as (k & tl & ->); [|done].
  split; [done|]. destruct Hst as [-> | ->]; [left|right; left].
Qed.

(** X12: [evaluate_dataset] adds at most one row and never changes or
    removes one. When it raises, whatever the exception, the jobs table is
    the one it started with; when it returns, the table is the old one
    followed by one pending row of the dataset carrying the returned id. *)
Theorem evaluate_dataset_adds_at_most_one (c : Connection) (d : uuid)
    (w : world) :
  ∃ o w', evaluate_dataset c d w = (o, w') ∧
    match o with
    | Raises _ => dataset_eval_jobs w' = dataset_eval_jobs w
    | Returns job_id =>
        job_id = uuid_generate_v4 c ∧
        dataset_eval_jobs w' =
          dataset_eval_jobs w ++
            [Job.Build job_id d STATUS_PENDING None None
               (current_timestamp c) (current_timestamp c)]
    end.
Proof.
  rewrite evaluate_dataset_run.
  destruct (filter (active d) (dataset_eval_jobs w));
    [|by do 2 eexists].
  destruct (db_dataset_get d) as [ds|e]; [|by do 2 eexists].
  destruct (validate_dataset ds w) as [[[]|e] wv];
    do 2 eexists; (split; [reflexivity|]); simpl; by auto.
Qed.

(** X13: [evaluate_dataset] keeps the queue's invariant. If every dataset
    has at most one pending or running job before the call, the same holds
    after it, whether it returned or raised. *)
Theorem evaluate_dataset_keeps_invariant (c : Connection) (d : uuid)
    (w : world) :
  at_most_one_active (dataset_eval_jobs w) →
  at_most_one_active (dataset_eval_jobs (evaluate_dataset c d w).2).
Proof.
  intros Hinv. rewrite evaluate_dataset_run.
  destruct (filter (active d) (dataset_eval_jobs w)) eqn:Hf; [|done].
  destruct (db_dataset_get d) as [ds|e]; [|done].
  destruct (validate_dataset ds w) as [[[]|e] wv]; [|done].
  simpl. intros d'. rewrite filter_app, length_app.
  destruct (decide (d' = d)) as [->|Hne].
  - rewrite Hf. simpl. rewrite filter_cons, filter_nil.
    destruct (decide (active d _)); simpl; lia.
  - rewrite filter_cons_False, filter_nil.
    + specialize (Hinv d'). simpl. lia.
    + intros [Hd _]. simpl in Hd. by destruct Hne.
Qed.

(** X14: exceptions of the collaborators pass through [evaluate_dataset]
    unchanged. With no pending or running job of the dataset, an exception
    of the dataset store, or of the structural validator on the dataset the
    store returned, is the exception of the call, and the world is as it
    was: no lookup was made and no job created. *)
Theorem evaluate_dataset_collaborator_error (c : Connection) (d : uuid)
    (w : world) (e : exn) :
  (∀ j, j ∈ dataset_eval_jobs w → ¬ active d j) →
  db_dataset_get d = Raises e ∨
  (∃ ds, db_dataset_get d = Returns ds ∧
         dataset_validator_validate ds true = Raises e) →
  evaluate_dataset c d w = (Raises e, w).
Proof.
  intros Hno Herr. rewrite evaluate_dataset_run.
  rewrite no_active_filter by done.
  destruct Herr as [->|(ds & -> & Hv)]; [done|].
  unfold validate_dataset, mbind, DB_bind, lift. rewrite Hv.
  by rewrite world_eta.
Qed.

(** X15: a submitted job can be fetched by the id [evaluate_dataset]
    returned. When that id is not the id of a job stored before, [get_job]
    returns the new job: this id, the dataset, status pending, no message,
    no result, created and updated at the time of the submission. *)
Theorem get_job_after_evaluate_dataset (c : Connection) (d job_id : uuid)
    (w w1 : world) :
  evaluate_dataset c d w = (Returns job_id, w1) →
  (∀ k, k ∈ dataset_eval_jobs w → Job.id k ≠ job_id) →
  get_job job_id w1 =
    (Returns (Some (Job.Build job_id d STATUS_PENDING None None
                      (current_timestamp c) (current_timestamp c))), w1).
Proof.
  intros Hrun Hfresh.
  destruct (evaluate_dataset_returns c d w job_id w1 Hrun)
    as [-> Hjobs].
  rewrite get_job_run, Hjobs, filter_app.
  replace (filter _ (dataset_eval_jobs w)) with (@nil Job.t).
  - by rewrite filter_cons_True.
  - symmetry. apply (proj1 (head_None _)).
    destruct (head _) as [k|] eqn:Hhd; [|done].
    apply head_Some_elem_of, list_elem_of_filter in Hhd as [Hid Hin].
    by destruct (Hfresh k Hin).
Qed.

End submission_outcomes.

(** ** The queue over time *)

Lemma get_next_pending_job_run (w : world) :
  get_next_pending_job w =
    (Returns (head (order_by_created
                      (filter (λ j, Job.status j = STATUS_PENDING)
                              (dataset_eval_jobs w)))), w).
Proof. reflexivity. Qed.

Section queue_over_time.
Context {modules : Collaborators}.

(** X16: first in, first out. After a submission that returned, a queue
    that had no pending job hands out the new job next; and a job that was
    pending before, with an earlier [created] than the time of the
    submission, is not overtaken: the job handed out next is one of the jobs
    stored before the submission. *)
Theorem next_pending_after_submission (c : Connection) (d job_id : uuid)
    (w w1 : world) :
  evaluate_dataset c d w = (Returns job_id, w1) →
  ((∀ k, k ∈ dataset_eval_jobs w → Job.status k ≠ STATUS_PENDING) →
   get_next_pending_job w1 =
     (Returns (Some (Job.Build job_id d STATUS_PENDING None None
                       (current_timestamp c) (current_timestamp c))), w1)) ∧
  (∀ k, k ∈ dataset_eval_jobs w → Job.status k = STATUS_PENDING →
        Job.created k < current_timestamp c →
        ∃ j, get_next_pending_job w1 = (Returns (Some j), w1) ∧
             j ∈ dataset_eval_jobs w ∧ Job.status j = STATUS_PENDING ∧
             Job.created j ≤ Job.created k).
Proof.
  intros Hrun.
  destruct (evaluate_dataset_returns c d w job_id w1 Hrun) as [-> Hjobs].
  rewrite get_next_pending_job_run, Hjobs, filter_app.
  rewrite (filter_cons_True _ (Job.Build _ _ _ _ _ _ _)) by done.
  rewrite filter_nil. split.
  - intros Hnone.
    replace (filter _ (dataset_eval_jobs w)) with (@nil Job.t); [done|].
    symmetry. apply (proj1 (head_None _)).
    destruct (head _) as [k|] eqn:Hhd; [|done].
    apply head_Some_elem_of, list_elem_of_filter in Hhd as [Hp Hin].
    by destruct (Hnone k Hin).
  - intros k Hk Hpk Hold.
    destruct (head (order_by_created _)) as [j|] eqn:Hhd.
    + exists j. split; [done|].
      apply order_by_created_head in Hhd as [Hin Hmin].
      assert (Hle : Job.created j ≤ Job.created k).
      { apply Hmin, elem_of_app. left. by apply list_elem_of_filter. }
      apply elem_of_app in Hin as [Hin|Hin].
      * apply list_elem_of_filter in Hin as [Hpj Hin]. done.
      * apply list_elem_of_singleton in Hin as ->. simpl in Hle. lia.
    + apply order_by_created_head_None in Hhd.
      by apply app_nil in Hhd as [_ ?].
Qed.

(** X17: once its job is finished a dataset can be submitted again. After
    a submission that returned, marking the returned id done or failed and
    submitting the same dataset again returns a new id, and the new job is
    then the only pending or running job of the dataset. *)
Theorem resubmission_after_finish (c1 c2 c3 : Connection) (d job_id : uuid)
    (status : string) (status_msg : option string) (w w1 : world) :
  evaluate_dataset c1 d w = (Returns job_id, w1) →
  terminal status →
  ∃ w2 w3,
    set_job_status c2 job_id status status_msg w1 = (Returns tt, w2) ∧
    evaluate_dataset c3 d w2 = (Returns (uuid_generate_v4 c3), w3) ∧
    filter (active d) (dataset_eval_jobs w3) =
      [Job.Build (uuid_generate_v4 c3) d STATUS_PENDING None None
         (current_timestamp c3) (current_timestamp c3)].
Proof.
  intros Hrun Hterm.
  destruct (evaluate_dataset_returns c1 d w job_id w1 Hrun) as [Hid Hjobs].
  rewrite evaluate_dataset_run in Hrun.
  destruct (filter (active d) (dataset_eval_jobs w)) eqn:Hf;
    [|discriminate Hrun].
  destruct (db_dataset_get d) as [ds|e] eqn:Hget; [|discriminate Hrun].
  destruct (validate_dataset ds w) as [[[]|e] wv] eqn:Hval;
    [|discriminate Hrun].
  apply validate_dataset_returns in Hval as (Hv & Hall & _).
  eexists. eexists.
  split; [by apply set_job_status_run, terminal_recognized|].
  set (w2 := World _ _).
  assert (Hnone : filter (active d) (dataset_eval_jobs w2) = []).
  { apply no_active_filter. intros k' Hk' Hact. simpl in Hk'.
    apply list_elem_of_fmap in Hk' as (k & -> & Hk).
    destruct (decide (Job.id k = job_id)) as [Heq|Hne].
    - destruct Hact as [_ Hact]. simpl in Hact.
      destruct Hterm as [-> | ->];
        repeat (apply elem_of_cons in Hact as [Hact|Hact];
                [discriminate Hact|]);
        by apply elem_of_nil in Hact.
    - rewrite Hjobs in Hk. apply elem_of_app in Hk as [Hk|Hk].
      + by apply (filter_nil_not_elem_of _ _ k Hf Hact).
      + apply list_elem_of_singleton in Hk as ->. by destruct Hne. }
  rewrite evaluate_dataset_run, Hnone, Hget.
  rewrite (validate_dataset_ok ds w2) by done.
  split; [reflexivity|]. simpl.
  fold (dataset_eval_jobs w2).
  rewrite filter_app.
  change (dataset_eval_jobs w2) with
    ((λ j, if decide (Job.id j = job_id)
           then with_status c2 status status_msg j else j)
       <$> dataset_eval_jobs w1) in Hnone |- *.
  rewrite Hnone. simpl. rewrite filter_cons_True; [done|].
  split; [done|]. simpl. left.
Qed.


End queue_over_time.

(** ** The queue over time on the example installation *)

Lemma submitted_run :
  evaluate_dataset (modules := Example.collab) Example.conn1 "A"
    Example.finished = (Returns "j1", Scenario.submitted).
Proof. vm_compute. reflexivity. Qed.

Lemma evaluate_dataset_job_exists_witness :
  evaluate_dataset (modules := Example.collab) Example.conn1 "B" Example.busy
    = (Raises JobExistsException, Example.busy).
Proof.
  apply (@evaluate_dataset_job_exists Example.collab Example.conn1 "B"
           Example.busy Example.job_b).
  - simpl. right. left.
  - reflexivity.
  - by left.
Defined.

Lemma evaluate_dataset_keeps_invariant_witness :
  at_most_one_active
    (dataset_eval_jobs
       (evaluate_dataset (modules := Example.collab) Example.conn1 "A"
          Example.finished).2).
Proof.
  apply (@evaluate_dataset_keeps_invariant Example.collab Example.conn1 "A"
           Example.finished).
  intros d. etrans; [apply length_filter|]. simpl. lia.
Defined.

Lemma evaluate_dataset_collaborator_error_witness :
  evaluate_dataset (modules := Example.collab) Example.conn1 "C" Example.busy
    = (Raises (CollaboratorError "no such dataset"), Example.busy).
Proof.
  apply (@evaluate_dataset_collaborator_error Example.collab Example.conn1
           "C" Example.busy).
  - intros j Hin [Hd _]. simpl in Hin.
    repeat (apply elem_of_cons in Hin as [->|Hin]; [discriminate Hd|]).
    by apply elem_of_nil in Hin.
  - left. reflexivity.
Defined.

Lemma get_job_after_evaluate_dataset_witness :
  get_job "j1" Scenario.submitted =
    (Returns (Some (Job.Build "j1" "A" "pending" None None 10 10)),
     Scenario.submitted).
Proof.
  apply (@get_job_after_evaluate_dataset Example.collab Example.conn1 "A"
           "j1" Example.finished Scenario.submitted).
  - apply submitted_run.
  - intros k Hk. simpl in Hk.
    apply list_elem_of_singleton in Hk as ->. discriminate.
Defined.

Lemma next_pending_after_submission_witness :
  get_next_pending_job Scenario.submitted =
    (Returns (Some (Job.Build "j1" "A" "pending" None None 10 10)),
     Scenario.submitted).
Proof.
  destruct (@next_pending_after_submission Example.collab Example.conn1 "A"
              "j1" Example.finished Scenario.submitted) as [Hfirst _].
  - apply submitted_run.
  - apply Hfirst. intros k Hk. simpl in Hk.
    apply list_elem_of_singleton in Hk as ->. discriminate.
Defined.

Lemma resubmission_after_finish_witness :
  ∃ w2 w3,
    set_job_status Example.conn2 "j1" "done" None Scenario.submitted
      = (Returns tt, w2) ∧
    evaluate_dataset (modules := Example.collab) Scenario.conn3 "A" w2
      = (Returns "j3", w3) ∧
    filter (active "A") (dataset_eval_jobs w3) =
      [Job.Build "j3" "A" "pending" None None 30 30].
Proof.
  apply (@resubmission_after_finish Example.collab Example.conn1
           Example.conn2 Scenario.conn3 "A" "j1" "done" None
           Example.finished Scenario.submitted).
  - apply submitted_run.
  - by left.
Defined.

